(** * GraphSearchService algorithm API: lifecycle, health and error boundary

    A shallow embedding of [py-service/src/main.py]: the [lifespan]
    asynchronous context manager that builds, initialises and cleans up the
    three core services, the [/health] and [/] endpoints, and the global
    exception handler.

    The three service classes, [setup_logging] and [setup_monitoring] live in
    other modules; the services enter the model as parameters (a record of
    behaviours per service), the two setup calls as trace events. *)

From Stdlib Require Import List String Bool Arith ZArith Lia.
Import ListNotations.
Open Scope string_scope.
Open Scope list_scope.
Set Warnings "-register-all".

(** ** Python values *)

(** The values a [health_check] may return and a handler may put in a JSON
    body. *)
Inductive PyVal : Type :=
| PyNone
| PyBool (b : bool)
| PyInt (z : Z)
| PyStr (s : string)
| PyList (xs : list PyVal)
| PyDict (kvs : list (string * PyVal)).

(** [bool(v)]: Python truthiness of the built-in values. *)
Definition truthy (v : PyVal) : bool :=
  match v with
  | PyNone => false
  | PyBool b => b
  | PyInt z => negb (Z.eqb z 0)
  | PyStr s => negb (String.eqb s "")
  | PyList xs => negb (Nat.eqb (List.length xs) 0)
  | PyDict kvs => negb (Nat.eqb (List.length kvs) 0)
  end.

(** [all(iterable)]. *)
Definition py_all (vs : list PyVal) : bool := forallb truthy vs.

(** [d.values()] and [d.keys()] of a dict kept in insertion order. *)
Definition dict_values (d : list (string * PyVal)) : list PyVal := map snd d.
Definition dict_keys (d : list (string * PyVal)) : list string := map fst d.


(** ** Exceptions and outcomes *)

(** An exception as [global_exception_handler] receives it: an instance of
    a subclass of [Exception], other than the HTTP and validation errors for
    which FastAPI installs handlers of its own.  Its class name and
    [str(exc)]. *)
Record Exc : Type := mkExc { exc_class : string; exc_str : string }.

Definition py_str (e : Exc) : string := exc_str e.

Inductive Outcome (A : Type) : Type :=
| Returns (a : A)
| Raises (e : Exc).
Arguments Returns {A} a.
Arguments Raises {A} e.

Definition is_ok {A} (o : Outcome A) : bool :=
  match o with Returns _ => true | Raises _ => false end.

(** ** Services *)

(** What awaiting one call of an [async def] method does: it finishes after
    [ticks] turns of the event loop, by returning or by raising. *)
Record Awaitable (A : Type) : Type := mkAwaitable {
  ticks : nat;
  finish : Outcome A
}.
Arguments mkAwaitable {A} ticks finish.
Arguments ticks {A} a.
Arguments finish {A} a.

(** The contract [main.py] expects of a core service. *)
Record Service : Type := mkService {
  svc_initialize : Awaitable unit;
  svc_cleanup : Awaitable unit;
  svc_health_check : Awaitable PyVal
}.

(** The three classes imported inside [lifespan]; each constructor call
    yields a service with the given behaviour. *)
Record Env : Type := mkEnv {
  FuzzyMatchService : Service;
  GraphIndexService : Service;
  QueryOptimizerService : Service
}.

Inductive Op : Type := Initialize | Cleanup | HealthCheck.

Definition Op_eqb (a b : Op) : bool :=
  match a, b with
  | Initialize, Initialize | Cleanup, Cleanup | HealthCheck, HealthCheck => true
  | _, _ => false
  end.

(** A coroutine object: the result of calling a service method, not yet
    awaited. *)
Record Coro (A : Type) : Type := mkCoro {
  co_name : string;
  co_op : Op;
  co_ticks : nat;
  co_finish : Outcome A
}.
Arguments mkCoro {A} co_name co_op co_ticks co_finish.
Arguments co_name {A} c.
Arguments co_op {A} c.
Arguments co_ticks {A} c.
Arguments co_finish {A} c.

(** ** The world: application state, generator position, trace *)

Inductive Event : Type :=
| EvSetupLogging
| EvSetupMonitoring
| EvCall (name : string) (op : Op)
| EvDone (name : string) (op : Op) (ok : bool)
| EvLogError (msg : string).

(** [app.state]: attributes are absent until [lifespan] assigns them. *)
Record AppState : Type := mkAppState {
  fuzzy_match_service : option Service;
  graph_index_service : option Service;
  query_optimizer_service : option Service
}.

(** Where the [lifespan] generator stands between two resumptions.
    [Uninitialized]: created, body not started.  [Ready]: suspended at the
    [yield] (line 39), the application serves.  [Stopped]: the body ran past
    line 46.  [FailedStartup]: an exception left lines 20-37.
    [FailedShutdown]: an exception left lines 42-46.  The transient positions
    inside the two [gather] calls are not observable between resumptions. *)
Inductive ProcessLifecycleState : Type :=
| Uninitialized
| Ready
| Stopped
| FailedStartup
| FailedShutdown.

Record World : Type := mkWorld {
  app_state : AppState;
  lifecycle : ProcessLifecycleState;
  cm_entered : bool;
  trace : list Event;
  pending : list (string * Op)
}.

Definition init_world : World :=
  mkWorld (mkAppState None None None) Uninitialized false [] [].

Definition with_app_state (s : AppState) (w : World) : World :=
  mkWorld s (lifecycle w) (cm_entered w) (trace w) (pending w).
Definition with_lifecycle (l : ProcessLifecycleState) (w : World) : World :=
  mkWorld (app_state w) l (cm_entered w) (trace w) (pending w).
Definition with_entered (w : World) : World :=
  mkWorld (app_state w) (lifecycle w) true (trace w) (pending w).
Definition log_events (evs : list Event) (w : World) : World :=
  mkWorld (app_state w) (lifecycle w) (cm_entered w) (trace w ++ evs) (pending w).
Definition leave_pending (ps : list (string * Op)) (w : World) : World :=
  mkWorld (app_state w) (lifecycle w) (cm_entered w) (trace w) (pending w ++ ps).

(** ** A state-and-exception monad for handler bodies *)

Definition M (A : Type) : Type := World -> World * Outcome A.

Definition ret {A} (a : A) : M A := fun w => (w, Returns a).
Definition bind {A B} (m : M A) (k : A -> M B) : M B :=
  fun w =>
    match m w with
    | (w', Returns a) => k a w'
    | (w', Raises e) => (w', Raises e)
    end.
Definition emit (ev : Event) : M unit := fun w => (log_events [ev] w, Returns tt).
Definition modify_state (f : AppState -> AppState) : M unit :=
  fun w => (with_app_state (f (app_state w)) w, Returns tt).

Declare Scope py_scope.
Delimit Scope py_scope with py.
Notation "x <- m ;; k" := (bind m (fun x => k))
  (at level 100, m at next level, right associativity) : py_scope.
Notation "m ;; k" := (bind m (fun _ => k))
  (at level 100, right associativity) : py_scope.
Open Scope py_scope.

(** Reading [app.state.<attr>]; Starlette's [State.__getattr__] raises
    [AttributeError] for an attribute never assigned. *)
Definition attribute_error (attr : string) : Exc :=
  mkExc "AttributeError"
    ("'State' object has no attribute '" ++ attr ++ "'")%string.

Definition getattr (proj : AppState -> option Service) (attr : string) : M Service :=
  fun w =>
    match proj (app_state w) with
    | Some s => (w, Returns s)
    | None => (w, Raises (attribute_error attr))
    end.

(** Calling an [async def] method builds the coroutine; nothing of its body
    runs yet. *)
Definition call {A} (name : string) (op : Op) (b : Awaitable A) : M (Coro A) :=
  emit (EvCall name op) ;;
  ret (mkCoro name op (ticks b) (finish b)).

Definition done_event {A} (c : Coro A) : Event :=
  EvDone (co_name c) (co_op c) (is_ok (co_finish c)).

(** [await coro]: the coroutine runs to its end; its exception, if any, is
    raised at the [await]. *)
Definition await {A} (c : Coro A) : M A :=
  fun w => (log_events [done_event c] w, co_finish c).

(** ** [asyncio.gather] with [return_exceptions=False] *)

(** The failure the awaiting caller sees: that of the failing coroutine that
    finishes first; among those finishing in the same turn, the earlier
    argument. *)
Fixpoint first_failure {A} (cs : list (Coro A)) : option (nat * Exc) :=
  match cs with
  | [] => None
  | c :: rest =>
      match co_finish c, first_failure rest with
      | Raises e, Some (t, e') =>
          if Nat.leb (co_ticks c) t then Some (co_ticks c, e) else Some (t, e')
      | Raises e, None => Some (co_ticks c, e)
      | Returns _, r => r
      end
  end.

(** Results in argument order. *)
Fixpoint results {A} (cs : list (Coro A)) : list A :=
  match cs with
  | [] => []
  | c :: rest =>
      match co_finish c with
      | Returns a => a :: results rest
      | Raises _ => results rest
      end
  end.

(** Completion order: by finishing turn, arguments of one turn in argument
    order. *)
Fixpoint insert_by_ticks {A} (c : Coro A) (l : list (Coro A)) : list (Coro A) :=
  match l with
  | [] => [c]
  | d :: l' =>
      if Nat.leb (co_ticks c) (co_ticks d) then c :: d :: l'
      else d :: insert_by_ticks c l'
  end.

Definition completion_order {A} (cs : list (Coro A)) : list (Coro A) :=
  fold_right insert_by_ticks [] cs.

Definition finished_by {A} (t : nat) (cs : list (Coro A)) : list (Coro A) :=
  filter (fun c => Nat.leb (co_ticks c) t) cs.
Definition running_after {A} (t : nat) (cs : list (Coro A)) : list (Coro A) :=
  filter (fun c => negb (Nat.leb (co_ticks c) t)) cs.

Definition label {A} (c : Coro A) : string * Op := (co_name c, co_op c).

(** [await asyncio.gather(c1, ..., cn)].  Every coroutine is scheduled.  With
    no failure the caller resumes once all have finished, with the list of
    results.  Otherwise the first failure is raised in the caller at the turn
    it occurs; the coroutines still running are not cancelled and nobody
    awaits them any more. *)
Definition gather {A} (cs : list (Coro A)) : M (list A) :=
  fun w =>
    match first_failure cs with
    | None =>
        (log_events (map done_event (completion_order cs)) w, Returns (results cs))
    | Some (t, e) =>
        (leave_pending (map label (running_after t cs))
           (log_events (map done_event (completion_order (finished_by t cs))) w),
         Raises e)
    end.

(** ** [main.py] *)

Definition set_fuzzy_match_service (s : Service) : M unit :=
  modify_state (fun st =>
    mkAppState (Some s) (graph_index_service st) (query_optimizer_service st)).
Definition set_graph_index_service (s : Service) : M unit :=
  modify_state (fun st =>
    mkAppState (fuzzy_match_service st) (Some s) (query_optimizer_service st)).
Definition set_query_optimizer_service (s : Service) : M unit :=
  modify_state (fun st =>
    mkAppState (fuzzy_match_service st) (graph_index_service st) (Some s)).

Definition setup_logging : M unit := emit EvSetupLogging.
Definition setup_monitoring : M unit := emit EvSetupMonitoring.

(** What resuming an asynchronous generator once can do. *)
Inductive GenStep : Type :=
| Yielded
| StopAsyncIteration
| GenRaised (e : Exc).

Section Application.

Variable env : Env.

(** [lifespan], lines 20-37: up to the [yield]. *)
Definition lifespan_startup : M unit :=
  setup_logging ;;
  setup_monitoring ;;
  set_fuzzy_match_service (FuzzyMatchService env) ;;
  set_graph_index_service (GraphIndexService env) ;;
  set_query_optimizer_service (QueryOptimizerService env) ;;
  s1 <- getattr fuzzy_match_service "fuzzy_match_service" ;;
  c1 <- call "fuzzy_match" Initialize (svc_initialize s1) ;;
  s2 <- getattr graph_index_service "graph_index_service" ;;
  c2 <- call "graph_index" Initialize (svc_initialize s2) ;;
  s3 <- getattr query_optimizer_service "query_optimizer_service" ;;
  c3 <- call "query_optimizer" Initialize (svc_initialize s3) ;;
  gather [c1; c2; c3] ;;
  ret tt.

(** [lifespan], lines 42-46: after the [yield]. *)
Definition lifespan_shutdown : M unit :=
  s1 <- getattr fuzzy_match_service "fuzzy_match_service" ;;
  c1 <- call "fuzzy_match" Cleanup (svc_cleanup s1) ;;
  s2 <- getattr graph_index_service "graph_index_service" ;;
  c2 <- call "graph_index" Cleanup (svc_cleanup s2) ;;
  s3 <- getattr query_optimizer_service "query_optimizer_service" ;;
  c3 <- call "query_optimizer" Cleanup (svc_cleanup s3) ;;
  gather [c1; c2; c3] ;;
  ret tt.

(** [lifespan(app)] as a generator: one resumption ([anext]).  There is no
    [try] around the [yield] or around either [gather]: an exception leaves
    the body and closes the generator; a closed generator runs no code. *)
Definition lifespan : World -> World * GenStep :=
  fun w =>
    match lifecycle w with
    | Uninitialized =>
        match lifespan_startup w with
        | (w', Returns _) => (with_lifecycle Ready w', Yielded)
        | (w', Raises e) => (with_lifecycle FailedStartup w', GenRaised e)
        end
    | Ready =>
        match lifespan_shutdown w with
        | (w', Returns _) => (with_lifecycle Stopped w', StopAsyncIteration)
        | (w', Raises e) => (with_lifecycle FailedShutdown w', GenRaised e)
        end
    | Stopped | FailedStartup | FailedShutdown => (w, StopAsyncIteration)
    end.

(** [@asynccontextmanager]: [__aenter__] of the object [lifespan(app)].  It
    drops its constructor arguments first, so entering twice fails before
    the generator is touched (message as printed by CPython 3.11). *)
Definition lifespan_aenter : M unit :=
  fun w =>
    if cm_entered w then (w, Raises (mkExc "AttributeError" "args"))
    else
      match lifespan (with_entered w) with
      | (w', Yielded) => (w', Returns tt)
      | (w', StopAsyncIteration) =>
          (w', Raises (mkExc "RuntimeError" "generator didn't yield"))
      | (w', GenRaised e) => (w', Raises e)
      end.

(** [__aexit__(None, None, None)]: the exit taken when the [async with]
    body ends normally.  It returns [False] when the generator stops.
    (The [Yielded] branch needs an exit before any entry; CPython 3.12
    additionally closes the generator there.) *)
Definition lifespan_aexit : M bool :=
  fun w =>
    match lifespan w with
    | (w', StopAsyncIteration) => (w', Returns false)
    | (w', Yielded) =>
        (w', Raises (mkExc "RuntimeError" "generator didn't stop"))
    | (w', GenRaised e) => (w', Raises e)
    end.

End Application.

(** [GET /]. *)
Definition root : M PyVal :=
  ret (PyDict [("service", PyStr "GraphSearchService Algorithm API");
               ("version", PyStr "1.0.0");
               ("status", PyStr "running")]).

(** [GET /health]: the three checks are awaited one after the other while
    the dict literal is built. *)
Definition health_check : M PyVal :=
  s1 <- getattr fuzzy_match_service "fuzzy_match_service" ;;
  c1 <- call "fuzzy_match" HealthCheck (svc_health_check s1) ;;
  v1 <- await c1 ;;
  s2 <- getattr graph_index_service "graph_index_service" ;;
  c2 <- call "graph_index" HealthCheck (svc_health_check s2) ;;
  v2 <- await c2 ;;
  s3 <- getattr query_optimizer_service "query_optimizer_service" ;;
  c3 <- call "query_optimizer" HealthCheck (svc_health_check s3) ;;
  v3 <- await c3 ;;
  let services_status :=
    [("fuzzy_match", v1); ("graph_index", v2); ("query_optimizer", v3)] in
  ret (PyDict
         [("status",
           PyStr (if py_all (dict_values services_status)
                  then "healthy" else "degraded"));
          ("services", PyDict services_status)]).

Record Request : Type := mkRequest { req_method : string; req_path : string }.

Record JSONResponse : Type := mkJSONResponse {
  status_code : nat;
  content : PyVal
}.

(** [@app.exception_handler(Exception)]. *)
Definition global_exception_handler (request : Request) (exc : Exc) : M JSONResponse :=
  emit (EvLogError ("全局异常: " ++ py_str exc)%string) ;;
  ret (mkJSONResponse 500
         (PyDict [("error", PyStr "内部服务器错误");
                  ("detail", PyStr (py_str exc))])).

(** How the application answers a request routed to [endpoint]: the returned
    value becomes a 200 JSON body; an exception leaving the endpoint goes to
    the handler registered for [Exception].  (Exceptions with a handler of
    the framework's own are not values of [Exc].) *)
Definition dispatch (request : Request) (endpoint : M PyVal) : M JSONResponse :=
  fun w =>
    match endpoint w with
    | (w', Returns body) => (w', Returns (mkJSONResponse 200 body))
    | (w', Raises exc) => global_exception_handler request exc w'
    end.

(** ** Observations on traces *)

Definition is_call (name : string) (op : Op) (ev : Event) : bool :=
  match ev with
  | EvCall n o => String.eqb n name && Op_eqb o op
  | _ => false
  end.

Definition is_done (name : string) (op : Op) (ev : Event) : bool :=
  match ev with
  | EvDone n o _ => String.eqb n name && Op_eqb o op
  | _ => false
  end.

Definition is_log (ev : Event) : bool :=
  match ev with EvLogError _ => true | _ => false end.

(** How often [name.op()] was invoked, and how often it ran to its end. *)
Definition calls (name : string) (op : Op) (tr : list Event) : nat :=
  List.length (filter (is_call name op) tr).
Definition completions (name : string) (op : Op) (tr : list Event) : nat :=
  List.length (filter (is_done name op) tr).

Definition is_pending (name : string) (op : Op) (p : string * Op) : bool :=
  String.eqb (fst p) name && Op_eqb (snd p) op.
Definition left_running (name : string) (op : Op) (ps : list (string * Op)) : nat :=
  List.length (filter (is_pending name op) ps).

(** The keys under which [main.py] reports the three services. *)
Definition service_names : list string :=
  ["fuzzy_match"; "graph_index"; "query_optimizer"].

(** [app.state] with the three attributes assigned. *)
Definition attached (s1 s2 s3 : Service) : AppState :=
  mkAppState (Some s1) (Some s2) (Some s3).

(** The services [lifespan] builds, in the order it builds them. *)
Definition created_services (env : Env) : list Service :=
  [FuzzyMatchService env; GraphIndexService env; QueryOptimizerService env].

(** The argument list of one of the two [gather] calls, and the trace of
    building it. *)
Definition method_coros (op : Op) (m : Service -> Awaitable unit)
    (s1 s2 s3 : Service) : list (Coro unit) :=
  [mkCoro "fuzzy_match" op (ticks (m s1)) (finish (m s1));
   mkCoro "graph_index" op (ticks (m s2)) (finish (m s2));
   mkCoro "query_optimizer" op (ticks (m s3)) (finish (m s3))].

Definition call_events (op : Op) : list Event :=
  [EvCall "fuzzy_match" op; EvCall "graph_index" op; EvCall "query_optimizer" op].


(** ** Concrete services used in the examples *)

Definition boom : Exc := mkExc "RuntimeError" "boom".

Definition svc_ok : Service :=
  mkService (mkAwaitable 0 (Returns tt)) (mkAwaitable 0 (Returns tt))
            (mkAwaitable 0 (Returns (PyBool true))).

(** Initialisation fails after two turns of the loop. *)
Definition svc_init_fails : Service :=
  mkService (mkAwaitable 2 (Raises boom)) (mkAwaitable 0 (Returns tt))
            (mkAwaitable 0 (Returns (PyBool true))).

(** Cleanup fails at once. *)
Definition svc_cleanup_fails : Service :=
  mkService (mkAwaitable 0 (Returns tt)) (mkAwaitable 0 (Raises boom))
            (mkAwaitable 0 (Returns (PyBool true))).

(** Cleanup succeeds, after five turns of the loop. *)
Definition svc_slow_cleanup : Service :=
  mkService (mkAwaitable 0 (Returns tt)) (mkAwaitable 5 (Returns tt))
            (mkAwaitable 0 (Returns (PyBool true))).

(** The health check itself raises. *)
Definition svc_health_raises : Service :=
  mkService (mkAwaitable 0 (Returns tt)) (mkAwaitable 0 (Returns tt))
            (mkAwaitable 0 (Raises boom)).

(** The health check answers with a value that is not a boolean. *)
Definition svc_health_says (v : PyVal) : Service :=
  mkService (mkAwaitable 0 (Returns tt)) (mkAwaitable 0 (Returns tt))
            (mkAwaitable 0 (Returns v)).

Definition env_ok : Env := mkEnv svc_ok svc_ok svc_ok.
Definition env_init_fails : Env := mkEnv svc_ok svc_init_fails svc_ok.
Definition env_cleanup_fails : Env := mkEnv svc_cleanup_fails svc_slow_cleanup svc_ok.
Definition env_health_raises : Env := mkEnv svc_health_raises svc_ok svc_ok.
Definition env_rich_health : Env :=
  mkEnv (svc_health_says (PyInt 1)) (svc_health_says (PyStr "ok"))
        (svc_health_says (PyList [PyNone])).

Definition get_health : Request := mkRequest "GET" "/health".


(** The world once [lifespan] has been entered with the given classes. *)
Definition started (env : Env) : World := fst (lifespan_aenter env init_world).

(** ** Driving the application *)

(** What the hosting runtime and its clients do to the application: enter
    and leave [lifespan], and request the two routes [main.py] defines. *)
Inductive Action : Type :=
| Enter
| Exit
| GetRoot
| GetHealth.

Definition get_root : Request := mkRequest "GET" "/".

Definition act (env : Env) (a : Action) (w : World) : World :=
  match a with
  | Enter => fst (lifespan_aenter env w)
  | Exit => fst (lifespan_aexit env w)
  | GetRoot => fst (dispatch get_root root w)
  | GetHealth => fst (dispatch get_health health_check w)
  end.

Definition run (env : Env) (acts : list Action) (w : World) : World :=
  fold_left (fun w a => act env a w) acts w.

(** What holds of the world at each position of the generator: which
    services are attached, and how often each was initialised and cleaned
    up. *)
Definition lifetime_inv (env : Env) (w : World) : Prop :=
  match lifecycle w with
  | Uninitialized =>
      app_state w = mkAppState None None None /\
      forall name, In name service_names ->
        calls name Initialize (trace w) = 0 /\ calls name Cleanup (trace w) = 0
  | Ready | FailedStartup =>
      app_state w
      = attached (FuzzyMatchService env) (GraphIndexService env)
          (QueryOptimizerService env) /\
      forall name, In name service_names ->
        calls name Initialize (trace w) = 1 /\ calls name Cleanup (trace w) = 0
  | Stopped | FailedShutdown =>
      app_state w
      = attached (FuzzyMatchService env) (GraphIndexService env)
          (QueryOptimizerService env) /\
      forall name, In name service_names ->
        calls name Initialize (trace w) = 1 /\ calls name Cleanup (trace w) = 1
  end.

(** The steps of [lifespan] before its first [await]. *)
Definition startup_calls : list Event :=
  [EvSetupLogging; EvSetupMonitoring] ++ call_events Initialize.

Definition is_completion (op : Op) (ev : Event) : bool :=
  match ev with
  | EvDone _ o _ => Op_eqb o op
  | _ => false
  end.

Definition env_slow_init : Env :=
  mkEnv (mkService (mkAwaitable 7 (Returns tt)) (mkAwaitable 0 (Returns tt))
           (mkAwaitable 0 (Returns (PyBool true))))
        svc_init_fails svc_ok.

(** ** Proof automation for the handlers *)

Ltac run_health :=
  unfold health_check, getattr, call, await, emit, bind, ret, log_events,
    done_event, py_all, dict_values;
  simpl.

Ltac split_outcomes :=
  repeat (simpl;
          match goal with
          | |- context [match ?o with Some _ => _ | None => _ end] =>
              destruct o
          | |- context [finish ?a] => destruct (finish a)
          end).

(** ** Facts about [gather] *)

Section GatherFacts.

Context {A : Type}.
Implicit Types (c : Coro A) (cs : list (Coro A)).

Lemma first_failure_none cs :
  first_failure cs = None <-> (forall c, In c cs -> is_ok (co_finish c) = true).
Proof.
  induction cs as [|c cs IH]; simpl.
  - split; [intros _ c [] | reflexivity].
  - destruct (co_finish c) as [a|e] eqn:Fc.
    + rewrite IH. split.
      * intros H d [<-|Hd]; [now rewrite Fc | now apply H].
      * intros H d Hd. apply H. now right.
    + split.
      * destruct (first_failure cs) as [[t e']|]; [destruct (Nat.leb _ _)|];
          discriminate.
      * intros H. specialize (H c (or_introl eq_refl)).
        rewrite Fc in H. discriminate.
Qed.

Lemma first_failure_some cs t e :
  first_failure cs = Some (t, e) ->
  exists c, In c cs /\ co_finish c = Raises e /\ co_ticks c = t.
Proof.
  revert t e. induction cs as [|c cs IH]; simpl; intros t e H.
  - discriminate.
  - destruct (co_finish c) as [a|ec] eqn:Fc.
    + destruct (IH _ _ H) as (d & Hd & Hf & Ht). exists d. auto.
    + destruct (first_failure cs) as [[t' e']|] eqn:Fr.
      * destruct (Nat.leb (co_ticks c) t') eqn:L; inversion H; subst.
        -- exists c. auto.
        -- destruct (IH _ _ eq_refl) as (d & Hd & Hf & Ht). exists d. auto.
      * inversion H; subst. exists c. auto.
Qed.

Lemma first_failure_least cs t e :
  first_failure cs = Some (t, e) ->
  forall c, In c cs -> is_ok (co_finish c) = false -> t <= co_ticks c.
Proof.
  revert t e. induction cs as [|c cs IH]; simpl; intros t e H d Hd Hf.
  - destruct Hd.
  - destruct (co_finish c) as [a|ec] eqn:Fc.
    + destruct Hd as [<-|Hd]; [rewrite Fc in Hf; discriminate|].
      eapply IH; eauto.
    + destruct (first_failure cs) as [[t' e']|] eqn:Fr.
      * destruct (Nat.leb (co_ticks c) t') eqn:L; inversion H; subst.
        -- apply Nat.leb_le in L. destruct Hd as [<-|Hd]; [lia|].
           specialize (IH _ _ eq_refl d Hd Hf). lia.
        -- apply Nat.leb_gt in L. destruct Hd as [<-|Hd]; [lia|].
           exact (IH _ _ eq_refl d Hd Hf).
      * inversion H; subst. destruct Hd as [<-|Hd]; [lia|].
        apply first_failure_none with (c := d) in Fr; [|exact Hd].
        rewrite Fr in Hf. discriminate.
Qed.

Lemma first_failure_exists cs :
  (exists c, In c cs /\ is_ok (co_finish c) = false) ->
  exists t e, first_failure cs = Some (t, e).
Proof.
  intros (c & Hc & Hf).
  destruct (first_failure cs) as [[t e]|] eqn:F; [eauto|].
  rewrite (proj1 (first_failure_none cs) F c Hc) in Hf. discriminate.
Qed.

(** Reordering by completion turn keeps every coroutine, once. *)
Lemma filter_insert_by_ticks (f : Coro A -> bool) c l :
  List.length (filter f (insert_by_ticks c l)) = List.length (filter f (c :: l)).
Proof.
  induction l as [|d l IH]; simpl; [reflexivity|].
  destruct (Nat.leb (co_ticks c) (co_ticks d)); simpl; [reflexivity|].
  simpl in IH. destruct (f d), (f c); simpl in *; lia.
Qed.

Lemma filter_completion_order (f : Coro A -> bool) cs :
  List.length (filter f (completion_order cs)) = List.length (filter f cs).
Proof.
  induction cs as [|c cs IH]; simpl; [reflexivity|].
  rewrite filter_insert_by_ticks. simpl. destruct (f c); simpl; lia.
Qed.

(** At the turn of the first failure every coroutine has either finished
    or is still running. *)
Lemma finished_or_running (f : Coro A -> bool) t cs :
  List.length (filter f (finished_by t cs))
  + List.length (filter f (running_after t cs))
  = List.length (filter f cs).
Proof.
  unfold finished_by, running_after.
  induction cs as [|c cs IH]; simpl; [reflexivity|].
  destruct (Nat.leb (co_ticks c) t); simpl; destruct (f c); simpl; lia.
Qed.

End GatherFacts.

Lemma filter_map_length {X Y} (p : Y -> bool) (g : X -> Y) (l : list X) :
  List.length (filter p (map g l)) = List.length (filter (fun x => p (g x)) l).
Proof.
  induction l as [|x l IH]; simpl; [reflexivity|].
  destruct (p (g x)); simpl; lia.
Qed.

Lemma calls_app name op tr evs :
  calls name op (tr ++ evs) = calls name op tr + calls name op evs.
Proof. unfold calls. now rewrite filter_app, length_app. Qed.

Lemma completions_app name op tr evs :
  completions name op (tr ++ evs) = completions name op tr + completions name op evs.
Proof. unfold completions. now rewrite filter_app, length_app. Qed.

(** ** Facts about the two halves of [lifespan] *)

Lemma calls_done_events {A} name op (cs : list (Coro A)) :
  calls name op (map done_event cs) = 0.
Proof. unfold calls. induction cs as [|c cs IH]; simpl; auto. Qed.

Lemma logs_done_events {A} (cs : list (Coro A)) :
  filter is_log (map done_event cs) = [].
Proof. induction cs as [|c cs IH]; simpl; auto. Qed.

Lemma calls_call_events name op :
  In name service_names -> calls name op (call_events op) = 1.
Proof.
  intros [<-|[<-|[<-|[]]]]; destruct op; reflexivity.
Qed.

Lemma calls_other_op name op op' :
  op <> op' -> calls name op (call_events op') = 0.
Proof.
  intros H. unfold calls, call_events. simpl.
  assert (Op_eqb op' op = false) as ->
    by (destruct op, op'; try reflexivity; contradiction H; reflexivity).
  now rewrite !andb_false_r.
Qed.

Lemma done_once name op m s1 s2 s3 :
  In name service_names ->
  List.length
    (filter (fun c => is_done name op (done_event c)) (method_coros op m s1 s2 s3))
  = 1.
Proof.
  intros [<-|[<-|[<-|[]]]]; destruct op; reflexivity.
Qed.

Lemma pending_once name op m s1 s2 s3 :
  In name service_names ->
  List.length
    (filter (fun c => is_pending name op (label c)) (method_coros op m s1 s2 s3))
  = 1.
Proof.
  intros [<-|[<-|[<-|[]]]]; destruct op; reflexivity.
Qed.

Lemma in_method_coros op m s1 s2 s3 c :
  In c (method_coros op m s1 s2 s3) ->
  exists s, In s [s1; s2; s3] /\ co_finish c = finish (m s).
Proof.
  intros [<-|[<-|[<-|[]]]]; simpl; eauto 6.
Qed.

Lemma method_coros_in op m s1 s2 s3 s :
  In s [s1; s2; s3] ->
  exists c, In c (method_coros op m s1 s2 s3) /\ co_finish c = finish (m s).
Proof.
  unfold method_coros.
  intros [<-|[<-|[<-|[]]]]; eexists; split;
    [left; reflexivity | reflexivity
    |right; left; reflexivity | reflexivity
    |right; right; left; reflexivity | reflexivity].
Qed.

(** A whole batch: what [await asyncio.gather(...)] leaves behind. *)
Lemma batch_ok {A} (cs : list (Coro A)) w :
  (forall c, In c cs -> is_ok (co_finish c) = true) ->
  (gather cs ;; ret tt) w
  = (log_events (map done_event (completion_order cs)) w, Returns tt).
Proof.
  intros H. apply first_failure_none in H.
  unfold bind, gather. now rewrite H.
Qed.

Lemma batch_fails {A} (cs : list (Coro A)) w :
  (exists c, In c cs /\ is_ok (co_finish c) = false) ->
  exists t e,
    first_failure cs = Some (t, e) /\
    (gather cs ;; ret tt) w
    = (leave_pending (map label (running_after t cs))
         (log_events (map done_event (completion_order (finished_by t cs))) w),
       Raises e).
Proof.
  intros H. destruct (first_failure_exists cs H) as (t & e & F).
  exists t, e. split; [exact F|]. unfold bind, gather. now rewrite F.
Qed.

Lemma lifespan_startup_unfold env w :
  lifespan_startup env w
  = (gather (method_coros Initialize svc_initialize (FuzzyMatchService env)
               (GraphIndexService env) (QueryOptimizerService env)) ;; ret tt)
      (mkWorld
         (attached (FuzzyMatchService env) (GraphIndexService env)
            (QueryOptimizerService env))
         (lifecycle w) (cm_entered w)
         (trace w ++ [EvSetupLogging; EvSetupMonitoring] ++ call_events Initialize)
         (pending w)).
Proof.
  unfold lifespan_startup, setup_logging, setup_monitoring,
    set_fuzzy_match_service, set_graph_index_service,
    set_query_optimizer_service, call, getattr, modify_state, emit, bind, ret,
    log_events, with_app_state, method_coros, attached, call_events.
  simpl. now rewrite <- !app_assoc.
Qed.

Lemma lifespan_shutdown_unfold w s1 s2 s3 :
  app_state w = attached s1 s2 s3 ->
  lifespan_shutdown w
  = (gather (method_coros Cleanup svc_cleanup s1 s2 s3) ;; ret tt)
      (log_events (call_events Cleanup) w).
Proof.
  destruct w as [st lc en tr pd]. simpl. intros ->.
  unfold lifespan_shutdown, call, getattr, emit, bind, ret, log_events,
    method_coros, call_events.
  simpl. now rewrite <- !app_assoc.
Qed.

Lemma completions_batch name op m s1 s2 s3 :
  In name service_names ->
  completions name op
    (map done_event (completion_order (method_coros op m s1 s2 s3))) = 1.
Proof.
  intros H. unfold completions.
  rewrite filter_map_length, filter_completion_order.
  now apply done_once.
Qed.

Lemma completions_partial name op m s1 s2 s3 t :
  In name service_names ->
  completions name op
    (map done_event (completion_order (finished_by t (method_coros op m s1 s2 s3))))
  + left_running name op (map label (running_after t (method_coros op m s1 s2 s3)))
  = 1.
Proof.
  intros H. unfold completions, left_running.
  rewrite !filter_map_length, filter_completion_order.
  assert (forall cs : list (Coro unit),
             List.length (filter (fun c => is_done name op (done_event c)) cs)
             = List.length (filter (fun c => is_pending name op (label c)) cs)) as E
    by (intros cs; f_equal; apply filter_ext; intros c; reflexivity).
  rewrite E, finished_or_running. now apply pending_once.
Qed.

Lemma startup_events_no_cleanup name (cs : list (Coro unit)) :
  calls name Cleanup
    (([EvSetupLogging; EvSetupMonitoring] ++ call_events Initialize)
       ++ map done_event cs) = 0.
Proof.
  rewrite calls_app, calls_done_events.
  unfold calls. simpl. now rewrite !andb_false_r.
Qed.

(** Entering [lifespan] when some [initialize] fails: the resulting world,
    in full. *)
Lemma startup_failure_shape env w :
  lifecycle w = Uninitialized ->
  cm_entered w = false ->
  (exists s, In s (created_services env) /\
             is_ok (finish (svc_initialize s)) = false) ->
  exists e (dn : list (Coro unit)) ps,
    lifespan_aenter env w
    = (mkWorld
         (attached (FuzzyMatchService env) (GraphIndexService env)
            (QueryOptimizerService env))
         FailedStartup true
         (trace w
          ++ ([EvSetupLogging; EvSetupMonitoring] ++ call_events Initialize)
          ++ map done_event dn)
         (pending w ++ ps),
       Raises e) /\
    exists s, In s (created_services env) /\ finish (svc_initialize s) = Raises e.
Proof.
  intros HL HE (s & Hs & Hf).
  unfold lifespan_aenter. rewrite HE.
  unfold lifespan. simpl (lifecycle (with_entered w)). rewrite HL.
  rewrite lifespan_startup_unfold.
  destruct (batch_fails
              (method_coros Initialize svc_initialize (FuzzyMatchService env)
                 (GraphIndexService env) (QueryOptimizerService env))
              (mkWorld
                 (attached (FuzzyMatchService env) (GraphIndexService env)
                    (QueryOptimizerService env))
                 (lifecycle (with_entered w)) (cm_entered (with_entered w))
                 (trace (with_entered w)
                  ++ [EvSetupLogging; EvSetupMonitoring] ++ call_events Initialize)
                 (pending (with_entered w))))
    as (t & e & F & ->).
  { destruct (method_coros_in Initialize svc_initialize _ _ _ s Hs) as (c & Hc & Ec).
    exists c. split; [exact Hc|]. now rewrite Ec. }
  exists e. eexists _, _. split.
  - unfold with_lifecycle, leave_pending, log_events. simpl.
    rewrite <- app_assoc. reflexivity.
  - apply first_failure_some in F as (c & Hc & Fc & _).
    apply in_method_coros in Hc as (s' & Hs' & E).
    exists s'. split; [exact Hs'|]. now rewrite <- E.
Qed.

(** ** Startup *)

(** C5.  When [initialize] succeeds for each of the services [lifespan]
    builds, entering [lifespan] returns normally with the generator suspended
    at its [yield] (state [Ready]); in the course of it [initialize] was
    invoked exactly once on each service, each invocation ran to its end, and
    nothing is left running. *)
Theorem startup_all_succeed env w :
  lifecycle w = Uninitialized ->
  cm_entered w = false ->
  (forall s, In s (created_services env) ->
             is_ok (finish (svc_initialize s)) = true) ->
  exists w' evs,
    lifespan_aenter env w = (w', Returns tt) /\
    lifecycle w' = Ready /\
    trace w' = trace w ++ evs /\
    pending w' = pending w /\
    forall name, In name service_names ->
      calls name Initialize evs = 1 /\ completions name Initialize evs = 1.
Proof.
  intros HL HE Hok.
  unfold lifespan_aenter. rewrite HE.
  unfold lifespan. simpl (lifecycle (with_entered w)). rewrite HL.
  rewrite lifespan_startup_unfold, batch_ok.
  2:{ intros c Hc. apply in_method_coros in Hc as (s & Hs & ->). now apply Hok. }
  remember (map done_event (completion_order _)) as dn eqn:Hdn.
  eexists _, (([EvSetupLogging; EvSetupMonitoring] ++ call_events Initialize) ++ dn).
  split; [reflexivity|]. split; [reflexivity|].
  split; [simpl; now rewrite <- app_assoc|]. split; [reflexivity|].
  intros name Hn. subst dn. split.
  - rewrite calls_app, calls_done_events, calls_app, calls_call_events
      by assumption.
    reflexivity.
  - rewrite completions_app, completions_batch by assumption. reflexivity.
Qed.

Lemma startup_all_succeed_witness :
  lifecycle init_world = Uninitialized /\
  cm_entered init_world = false /\
  (forall s, In s (created_services env_ok) ->
             is_ok (finish (svc_initialize s)) = true) /\
  exists w' evs,
    lifespan_aenter env_ok init_world = (w', Returns tt) /\
    lifecycle w' = Ready /\
    trace w' = trace init_world ++ evs /\
    pending w' = pending init_world /\
    forall name, In name service_names ->
      calls name Initialize evs = 1 /\ completions name Initialize evs = 1.
Proof.
  assert (forall s, In s (created_services env_ok) ->
                    is_ok (finish (svc_initialize s)) = true) as H
    by (intros s [<-|[<-|[<-|[]]]]; reflexivity).
  split; [reflexivity|]. split; [reflexivity|]. split; [exact H|].
  exact (startup_all_succeed env_ok init_world eq_refl eq_refl H).
Defined.

(** C4.  When [initialize] fails for at least one of the services, entering
    [lifespan] raises to its caller the exception of a failing [initialize];
    the generator is closed before its [yield] (state [FailedStartup]), and
    stays so under any further resumption: the application never serves. *)
Theorem startup_failure_propagates env w :
  lifecycle w = Uninitialized ->
  cm_entered w = false ->
  (exists s, In s (created_services env) /\
             is_ok (finish (svc_initialize s)) = false) ->
  exists w' e,
    lifespan_aenter env w = (w', Raises e) /\
    (exists s, In s (created_services env) /\
               finish (svc_initialize s) = Raises e) /\
    lifecycle w' = FailedStartup /\
    lifecycle w' <> Ready /\
    lifespan env w' = (w', StopAsyncIteration).
Proof.
  intros HL HE Hf.
  destruct (startup_failure_shape env w HL HE Hf) as (e & dn & ps & -> & Hs).
  eexists _, e. split; [reflexivity|]. split; [exact Hs|].
  repeat split; discriminate.
Qed.

Lemma startup_failure_propagates_witness :
  lifecycle init_world = Uninitialized /\
  cm_entered init_world = false /\
  (exists s, In s (created_services env_init_fails) /\
             is_ok (finish (svc_initialize s)) = false) /\
  exists w' e,
    lifespan_aenter env_init_fails init_world = (w', Raises e) /\
    (exists s, In s (created_services env_init_fails) /\
               finish (svc_initialize s) = Raises e) /\
    lifecycle w' = FailedStartup /\
    lifecycle w' <> Ready /\
    lifespan env_init_fails w' = (w', StopAsyncIteration).
Proof.
  assert (exists s, In s (created_services env_init_fails) /\
                    is_ok (finish (svc_initialize s)) = false) as H
    by (exists svc_init_fails; split; [right; left; reflexivity | reflexivity]).
  split; [reflexivity|]. split; [reflexivity|]. split; [exact H|].
  exact (startup_failure_propagates env_init_fails init_world eq_refl eq_refl H).
Defined.

(** C3, as the code has it.  When startup has failed the generator is
    already closed, so the exit of [lifespan] runs none of the code after the
    [yield]: it returns normally, invokes [cleanup] on no service, and the
    state remains [FailedStartup]. *)
Theorem failed_startup_skips_cleanup env w :
  lifecycle w = Uninitialized ->
  cm_entered w = false ->
  (exists s, In s (created_services env) /\
             is_ok (finish (svc_initialize s)) = false) ->
  exists w' e,
    lifespan_aenter env w = (w', Raises e) /\
    lifecycle w' = FailedStartup /\
    lifespan_aexit env w' = (w', Returns false) /\
    forall name, calls name Cleanup (trace w') = calls name Cleanup (trace w).
Proof.
  intros HL HE Hf.
  destruct (startup_failure_shape env w HL HE Hf) as (e & dn & ps & -> & _).
  eexists _, e. split; [reflexivity|]. split; [reflexivity|].
  split; [reflexivity|].
  intros name. cbn [trace].
  rewrite calls_app, startup_events_no_cleanup. lia.
Qed.

Lemma failed_startup_skips_cleanup_witness :
  lifecycle init_world = Uninitialized /\
  cm_entered init_world = false /\
  (exists s, In s (created_services env_init_fails) /\
             is_ok (finish (svc_initialize s)) = false) /\
  exists w' e,
    lifespan_aenter env_init_fails init_world = (w', Raises e) /\
    lifecycle w' = FailedStartup /\
    lifespan_aexit env_init_fails w' = (w', Returns false) /\
    forall name,
      calls name Cleanup (trace w') = calls name Cleanup (trace init_world).
Proof.
  assert (exists s, In s (created_services env_init_fails) /\
                    is_ok (finish (svc_initialize s)) = false) as H
    by (exists svc_init_fails; split; [right; left; reflexivity | reflexivity]).
  split; [reflexivity|]. split; [reflexivity|]. split; [exact H|].
  exact (failed_startup_skips_cleanup env_init_fails init_world eq_refl eq_refl H).
Defined.

(** C3 fails as stated: with [graph_index] failing to initialise, startup
    fails, and the shutdown that follows invokes [cleanup] on no service (not
    once on each) and does not end in [Stopped]. *)
Lemma cleanup_after_failed_startup_counterexample :
  let w1 := fst (lifespan_aenter env_init_fails init_world) in
  let w2 := fst (lifespan_aexit env_init_fails w1) in
  lifecycle w1 = FailedStartup /\
  snd (lifespan_aexit env_init_fails w1) = Returns false /\
  calls "fuzzy_match" Cleanup (trace w2) = 0 /\
  calls "graph_index" Cleanup (trace w2) = 0 /\
  calls "query_optimizer" Cleanup (trace w2) = 0 /\
  ~ (forall name, In name service_names -> calls name Cleanup (trace w2) = 1) /\
  lifecycle w2 <> Stopped.
Proof.
  repeat split; try reflexivity.
  - intros H. specialize (H "fuzzy_match" (or_introl eq_refl)). discriminate H.
  - discriminate.
Qed.

(** ** Shutdown *)

(** C2, as the code has it.  Leaving [lifespan] from [Ready] invokes
    [cleanup] exactly once on each of the three services, whatever the other
    cleanups do.  Nothing is caught or logged: when no cleanup fails all of
    them run to their end and the exit returns normally in state [Stopped];
    when one fails, the exception of a failing cleanup is raised to the
    caller, and every cleanup has either finished by then or is left running
    with nobody awaiting it. *)
Theorem shutdown_cleanup_behaviour env w s1 s2 s3 :
  lifecycle w = Ready ->
  app_state w = attached s1 s2 s3 ->
  exists w' r evs ps,
    lifespan_aexit env w = (w', r) /\
    trace w' = trace w ++ evs /\
    pending w' = pending w ++ ps /\
    (forall name, In name service_names ->
       calls name Cleanup evs = 1 /\
       completions name Cleanup evs + left_running name Cleanup ps = 1) /\
    filter is_log evs = [] /\
    ((forall s, In s [s1; s2; s3] -> is_ok (finish (svc_cleanup s)) = true) ->
       r = Returns false /\ lifecycle w' = Stopped /\ ps = []) /\
    ((exists s, In s [s1; s2; s3] /\ is_ok (finish (svc_cleanup s)) = false) ->
       exists e,
         r = Raises e /\
         (exists s, In s [s1; s2; s3] /\ finish (svc_cleanup s) = Raises e) /\
         lifecycle w' = FailedShutdown).
Proof.
  intros HL HS.
  unfold lifespan_aexit, lifespan. rewrite HL.
  rewrite (lifespan_shutdown_unfold w s1 s2 s3 HS).
  set (cs := method_coros Cleanup svc_cleanup s1 s2 s3).
  assert (forall name, In name service_names ->
            calls name Cleanup (call_events Cleanup) = 1
            /\ completions name Cleanup (call_events Cleanup) = 0) as Hcalls
    by (intros name Hn; split; [now apply calls_call_events | reflexivity]).
  destruct (first_failure cs) as [[t e]|] eqn:F.
  - unfold bind, gather. rewrite F.
    eexists _, (Raises e),
      (call_events Cleanup ++ map done_event (completion_order (finished_by t cs))),
      (map label (running_after t cs)).
    split; [reflexivity|]. split; [simpl; now rewrite <- app_assoc|].
    split; [reflexivity|]. split; [|split; [|split]].
    + intros name Hn. destruct (Hcalls name Hn) as [Hc Hd].
      rewrite calls_app, calls_done_events, completions_app, Hc, Hd.
      split; [reflexivity|]. now apply completions_partial.
    + rewrite filter_app, logs_done_events. reflexivity.
    + intros Hok. exfalso.
      assert (first_failure cs = None) as N.
      { apply first_failure_none. intros c Hc.
        apply in_method_coros in Hc as (s & Hs & ->). now apply Hok. }
      congruence.
    + intros _. exists e. split; [reflexivity|]. split; [|reflexivity].
      apply first_failure_some in F as (c & Hc & Fc & _).
      apply in_method_coros in Hc as (s & Hs & E).
      exists s. split; [exact Hs|]. now rewrite <- E.
  - unfold bind, gather. rewrite F.
    eexists _, (Returns false),
      (call_events Cleanup ++ map done_event (completion_order cs)), [].
    split; [reflexivity|]. split; [simpl; now rewrite <- app_assoc|].
    split; [simpl; now rewrite app_nil_r|]. split; [|split; [|split]].
    + intros name Hn. destruct (Hcalls name Hn) as [Hc Hd].
      rewrite calls_app, calls_done_events, completions_app, Hc, Hd.
      split; [reflexivity|].
      unfold cs. rewrite completions_batch by assumption. reflexivity.
    + rewrite filter_app, logs_done_events. reflexivity.
    + intros _. repeat split.
    + intros (s & Hs & Hf). exfalso.
      destruct (method_coros_in Cleanup svc_cleanup s1 s2 s3 s Hs) as (c & Hc & Ec).
      pose proof (proj1 (first_failure_none cs) F c Hc) as Hc'.
      rewrite Ec, Hf in Hc'. discriminate.
Qed.

Lemma shutdown_cleanup_behaviour_witness :
  lifecycle (started env_cleanup_fails) = Ready /\
  app_state (started env_cleanup_fails)
  = attached svc_cleanup_fails svc_slow_cleanup svc_ok /\
  exists w' r evs ps,
    lifespan_aexit env_cleanup_fails (started env_cleanup_fails) = (w', r) /\
    trace w' = trace (started env_cleanup_fails) ++ evs /\
    pending w' = pending (started env_cleanup_fails) ++ ps /\
    (forall name, In name service_names ->
       calls name Cleanup evs = 1 /\
       completions name Cleanup evs + left_running name Cleanup ps = 1) /\
    filter is_log evs = [] /\
    ((forall s, In s [svc_cleanup_fails; svc_slow_cleanup; svc_ok] ->
                is_ok (finish (svc_cleanup s)) = true) ->
       r = Returns false /\ lifecycle w' = Stopped /\ ps = []) /\
    ((exists s, In s [svc_cleanup_fails; svc_slow_cleanup; svc_ok] /\
                is_ok (finish (svc_cleanup s)) = false) ->
       exists e,
         r = Raises e /\
         (exists s, In s [svc_cleanup_fails; svc_slow_cleanup; svc_ok] /\
                    finish (svc_cleanup s) = Raises e) /\
         lifecycle w' = FailedShutdown).
Proof.
  split; [reflexivity|]. split; [reflexivity|].
  exact (shutdown_cleanup_behaviour env_cleanup_fails
           (started env_cleanup_fails)
           svc_cleanup_fails svc_slow_cleanup svc_ok eq_refl eq_refl).
Defined.

(** C2 fails as stated: with [fuzzy_match] failing its cleanup at once and
    [graph_index] needing five turns for its own, the exit of [lifespan]
    raises the cleanup exception to its caller, logs nothing, and returns
    before the cleanup of [graph_index] has run to its end. *)
Lemma cleanup_failure_surfaces_counterexample :
  let w1 := started env_cleanup_fails in
  let w2 := fst (lifespan_aexit env_cleanup_fails w1) in
  lifecycle w1 = Ready /\
  snd (lifespan_aexit env_cleanup_fails w1) = Raises boom /\
  ~ (exists b, snd (lifespan_aexit env_cleanup_fails w1) = Returns b) /\
  filter is_log (trace w2) = [] /\
  calls "graph_index" Cleanup (trace w2) = 1 /\
  completions "graph_index" Cleanup (trace w2) = 0 /\
  left_running "graph_index" Cleanup (pending w2) = 1.
Proof.
  repeat split; try reflexivity.
  intros [b H]. discriminate H.
Qed.

(** C8.  Once a first exit of [lifespan] has completed (state [Stopped]), a
    second exit changes nothing at all: it returns normally, invokes no
    [cleanup], and the state is still [Stopped]. *)
Theorem shutdown_idempotent env w :
  lifecycle w = Stopped ->
  lifespan_aexit env w = (w, Returns false) /\
  lifecycle (fst (lifespan_aexit env w)) = Stopped /\
  forall name,
    calls name Cleanup (trace (fst (lifespan_aexit env w)))
    = calls name Cleanup (trace w).
Proof.
  intros HL.
  assert (lifespan_aexit env w = (w, Returns false)) as E
    by (unfold lifespan_aexit, lifespan; now rewrite HL).
  rewrite E. simpl. auto.
Qed.

Lemma shutdown_idempotent_witness :
  let w := fst (lifespan_aexit env_ok (started env_ok)) in
  lifecycle w = Stopped /\
  calls "fuzzy_match" Cleanup (trace w) = 1 /\
  lifespan_aexit env_ok w = (w, Returns false) /\
  lifecycle (fst (lifespan_aexit env_ok w)) = Stopped /\
  forall name,
    calls name Cleanup (trace (fst (lifespan_aexit env_ok w)))
    = calls name Cleanup (trace w).
Proof.
  split; [reflexivity|]. split; [reflexivity|].
  exact (shutdown_idempotent env_ok
           (fst (lifespan_aexit env_ok (started env_ok))) eq_refl).
Defined.

(** ** Health *)

(** The report built when the three checks return. *)
Lemma health_check_returns w s1 s2 s3 v1 v2 v3 :
  app_state w = attached s1 s2 s3 ->
  finish (svc_health_check s1) = Returns v1 ->
  finish (svc_health_check s2) = Returns v2 ->
  finish (svc_health_check s3) = Returns v3 ->
  health_check w
  = (log_events
       [EvCall "fuzzy_match" HealthCheck; EvDone "fuzzy_match" HealthCheck true;
        EvCall "graph_index" HealthCheck; EvDone "graph_index" HealthCheck true;
        EvCall "query_optimizer" HealthCheck;
        EvDone "query_optimizer" HealthCheck true] w,
     Returns
       (PyDict
          [("status",
            PyStr (if truthy v1 && (truthy v2 && (truthy v3 && true))
                   then "healthy" else "degraded"));
           ("services",
            PyDict [("fuzzy_match", v1); ("graph_index", v2);
                    ("query_optimizer", v3)])])).
Proof.
  destruct w as [st lc en tr pd]. simpl. intros -> H1 H2 H3.
  run_health. rewrite H1. simpl. rewrite H2. simpl. rewrite H3. simpl.
  now rewrite <- !app_assoc.
Qed.

(** The handler touches nothing but the trace. *)
Lemma health_check_frame w :
  app_state (fst (health_check w)) = app_state w /\
  lifecycle (fst (health_check w)) = lifecycle w /\
  cm_entered (fst (health_check w)) = cm_entered w /\
  pending (fst (health_check w)) = pending w.
Proof.
  destruct w as [[f g q] lc en tr pd]. run_health.
  split_outcomes; repeat split.
Qed.


(** A report, when there is one, has the three fixed keys. *)
Lemma health_check_report w w' body :
  health_check w = (w', Returns body) ->
  exists verdict v1 v2 v3,
    body = PyDict
             [("status", PyStr verdict);
              ("services",
               PyDict [("fuzzy_match", v1); ("graph_index", v2);
                       ("query_optimizer", v3)])].
Proof.
  destruct w as [[f g q] lc en tr pd]. run_health.
  split_outcomes; intros H; inversion H; eauto.
Qed.


(** ** The error boundary *)






(** C7.  When the three checks return, [/health] answers ["healthy"] exactly
    when each returned entry is truthy and ["degraded"] otherwise; the
    [services] mapping holds each service's own result; and neither the
    lifecycle state nor [app.state] is changed. *)
Theorem health_verdict w s1 s2 s3 v1 v2 v3 :
  app_state w = attached s1 s2 s3 ->
  finish (svc_health_check s1) = Returns v1 ->
  finish (svc_health_check s2) = Returns v2 ->
  finish (svc_health_check s3) = Returns v3 ->
  exists w' verdict,
    health_check w
    = (w', Returns
             (PyDict
                [("status", PyStr verdict);
                 ("services",
                  PyDict [("fuzzy_match", v1); ("graph_index", v2);
                          ("query_optimizer", v3)])])) /\
    (verdict = "healthy" <->
       truthy v1 = true /\ truthy v2 = true /\ truthy v3 = true) /\
    (verdict = "degraded" <->
       ~ (truthy v1 = true /\ truthy v2 = true /\ truthy v3 = true)) /\
    lifecycle w' = lifecycle w /\
    app_state w' = app_state w.
Proof.
  intros HS H1 H2 H3.
  rewrite (health_check_returns w s1 s2 s3 v1 v2 v3 HS H1 H2 H3).
  eexists _, _. split; [reflexivity|].
  destruct (truthy v1), (truthy v2), (truthy v3); simpl;
    repeat split; try reflexivity; try discriminate; intuition discriminate.
Qed.

Lemma health_verdict_witness :
  app_state (started env_rich_health)
  = attached (svc_health_says (PyInt 1)) (svc_health_says (PyStr "ok"))
      (svc_health_says (PyList [PyNone])) /\
  exists w' verdict,
    health_check (started env_rich_health)
    = (w', Returns
             (PyDict
                [("status", PyStr verdict);
                 ("services",
                  PyDict [("fuzzy_match", PyInt 1); ("graph_index", PyStr "ok");
                          ("query_optimizer", PyList [PyNone])])])) /\
    (verdict = "healthy" <->
       truthy (PyInt 1) = true /\ truthy (PyStr "ok") = true
       /\ truthy (PyList [PyNone]) = true) /\
    (verdict = "degraded" <->
       ~ (truthy (PyInt 1) = true /\ truthy (PyStr "ok") = true
          /\ truthy (PyList [PyNone]) = true)) /\
    lifecycle w' = lifecycle (started env_rich_health) /\
    app_state w' = app_state (started env_rich_health).
Proof.
  split; [reflexivity|].
  exact (health_verdict (started env_rich_health)
           (svc_health_says (PyInt 1)) (svc_health_says (PyStr "ok"))
           (svc_health_says (PyList [PyNone]))
           (PyInt 1) (PyStr "ok") (PyList [PyNone])
           eq_refl eq_refl eq_refl eq_refl).
Defined.





(** ** The fixed set of services *)

Lemma aenter_app_state env w :
  lifecycle w = Uninitialized ->
  cm_entered w = false ->
  app_state (fst (lifespan_aenter env w))
  = attached (FuzzyMatchService env) (GraphIndexService env)
      (QueryOptimizerService env).
Proof.
  intros HL HE. unfold lifespan_aenter. rewrite HE.
  unfold lifespan. simpl (lifecycle (with_entered w)). rewrite HL.
  rewrite lifespan_startup_unfold. unfold bind, gather.
  destruct (first_failure _) as [[t e]|]; reflexivity.
Qed.

Lemma lifespan_keeps_services env w :
  lifecycle w <> Uninitialized ->
  app_state (fst (lifespan env w)) = app_state w.
Proof.
  destruct w as [[f g q] lc en tr pd]. simpl. intros HL.
  unfold lifespan. cbn [lifecycle].
  destruct lc; try reflexivity; [contradiction|].
  destruct f as [f|], g as [g|], q as [q|]; try reflexivity.
  rewrite (lifespan_shutdown_unfold
             (mkWorld (mkAppState (Some f) (Some g) (Some q)) Ready en tr pd)
             f g q eq_refl).
  unfold bind, gather.
  destruct (first_failure (method_coros Cleanup svc_cleanup f g q)) as [[t e]|];
    reflexivity.
Qed.

(** C10.  The services are the three that [lifespan] builds on entry, and
    nothing later replaces them: resuming [lifespan] after its start, the
    [/health] handler and the exception handler all leave [app.state] as it
    is; and every report of [/health] has a [services] mapping with exactly
    the keys [fuzzy_match], [graph_index] and [query_optimizer]. *)
Theorem services_fixed env :
  (forall w, lifecycle w = Uninitialized -> cm_entered w = false ->
     app_state (fst (lifespan_aenter env w))
     = mkAppState (Some (FuzzyMatchService env)) (Some (GraphIndexService env))
         (Some (QueryOptimizerService env))) /\
  (forall w, lifecycle w <> Uninitialized ->
     app_state (fst (lifespan env w)) = app_state w) /\
  (forall w, app_state (fst (health_check w)) = app_state w) /\
  (forall request exc w,
     app_state (fst (global_exception_handler request exc w)) = app_state w) /\
  (forall w w' body, health_check w = (w', Returns body) ->
     exists verdict services,
       body = PyDict [("status", PyStr verdict); ("services", PyDict services)] /\
       dict_keys services = ["fuzzy_match"; "graph_index"; "query_optimizer"]).
Proof.
  split; [exact (aenter_app_state env)|].
  split; [exact (lifespan_keeps_services env)|].
  split; [intros w; apply health_check_frame|].
  split; [reflexivity|].
  intros w w' body H.
  destruct (health_check_report w w' body H) as (verdict & v1 & v2 & v3 & ->).
  eexists _, _. split; reflexivity.
Qed.

Lemma services_fixed_witness :
  app_state (started env_ok) = mkAppState (Some svc_ok) (Some svc_ok) (Some svc_ok) /\
  app_state (fst (lifespan env_ok (started env_ok))) = app_state (started env_ok) /\
  exists verdict services,
    PyDict
      [("status", PyStr "healthy");
       ("services",
        PyDict [("fuzzy_match", PyBool true); ("graph_index", PyBool true);
                ("query_optimizer", PyBool true)])]
    = PyDict [("status", PyStr verdict); ("services", PyDict services)] /\
    dict_keys services = ["fuzzy_match"; "graph_index"; "query_optimizer"].
Proof.
  destruct (services_fixed env_ok) as (H1 & H2 & _ & _ & H5).
  split; [exact (H1 init_world eq_refl eq_refl)|].
  split; [apply H2; discriminate|].
  exact (H5 (started env_ok) _ _ eq_refl).
Defined.

(** ** One resumption of [lifespan], in full *)

Lemma lifespan_startup_step env w :
  lifecycle w = Uninitialized ->
  lifespan env w
  = match first_failure
            (method_coros Initialize svc_initialize (FuzzyMatchService env)
               (GraphIndexService env) (QueryOptimizerService env)) with
    | None =>
        (mkWorld
           (attached (FuzzyMatchService env) (GraphIndexService env)
              (QueryOptimizerService env))
           Ready (cm_entered w)
           (trace w
            ++ startup_calls
            ++ map done_event
                 (completion_order
                    (method_coros Initialize svc_initialize
                       (FuzzyMatchService env) (GraphIndexService env)
                       (QueryOptimizerService env))))
           (pending w),
         Yielded)
    | Some (t, e) =>
        (mkWorld
           (attached (FuzzyMatchService env) (GraphIndexService env)
              (QueryOptimizerService env))
           FailedStartup (cm_entered w)
           (trace w
            ++ startup_calls
            ++ map done_event
                 (completion_order
                    (finished_by t
                       (method_coros Initialize svc_initialize
                          (FuzzyMatchService env) (GraphIndexService env)
                          (QueryOptimizerService env)))))
           (pending w
            ++ map label
                 (running_after t
                    (method_coros Initialize svc_initialize
                       (FuzzyMatchService env) (GraphIndexService env)
                       (QueryOptimizerService env)))),
         GenRaised e)
    end.
Proof.
  intros HL. unfold lifespan. rewrite HL, lifespan_startup_unfold.
  unfold bind, gather, startup_calls.
  destruct (first_failure _) as [[t e]|];
    unfold with_lifecycle, leave_pending, log_events;
    cbn [app_state lifecycle cm_entered trace pending];
    now rewrite <- app_assoc.
Qed.

Lemma lifespan_shutdown_step env w s1 s2 s3 :
  lifecycle w = Ready ->
  app_state w = attached s1 s2 s3 ->
  lifespan env w
  = match first_failure (method_coros Cleanup svc_cleanup s1 s2 s3) with
    | None =>
        (mkWorld (app_state w) Stopped (cm_entered w)
           (trace w
            ++ call_events Cleanup
            ++ map done_event
                 (completion_order (method_coros Cleanup svc_cleanup s1 s2 s3)))
           (pending w),
         StopAsyncIteration)
    | Some (t, e) =>
        (mkWorld (app_state w) FailedShutdown (cm_entered w)
           (trace w
            ++ call_events Cleanup
            ++ map done_event
                 (completion_order
                    (finished_by t (method_coros Cleanup svc_cleanup s1 s2 s3))))
           (pending w
            ++ map label
                 (running_after t (method_coros Cleanup svc_cleanup s1 s2 s3))),
         GenRaised e)
    end.
Proof.
  intros HL HS. unfold lifespan. rewrite HL.
  rewrite (lifespan_shutdown_unfold w s1 s2 s3 HS).
  unfold bind, gather.
  destruct (first_failure _) as [[t e]|];
    unfold with_lifecycle, leave_pending, log_events;
    cbn [app_state lifecycle cm_entered trace pending];
    now rewrite <- app_assoc.
Qed.

Lemma in_method_coros_full op m s1 s2 s3 c :
  In c (method_coros op m s1 s2 s3) ->
  exists s, In s [s1; s2; s3]
            /\ co_finish c = finish (m s) /\ co_ticks c = ticks (m s).
Proof.
  intros [<-|[<-|[<-|[]]]]; simpl; eauto 7.
Qed.

Lemma method_coros_in_full op m s1 s2 s3 s :
  In s [s1; s2; s3] ->
  exists c, In c (method_coros op m s1 s2 s3)
            /\ co_finish c = finish (m s) /\ co_ticks c = ticks (m s).
Proof.
  unfold method_coros.
  intros [<-|[<-|[<-|[]]]]; eexists; split;
    [left; reflexivity | split; reflexivity
    |right; left; reflexivity | split; reflexivity
    |right; right; left; reflexivity | split; reflexivity].
Qed.

(** The failure a batch surfaces belongs to a service that failed no later
    than any other failing one. *)
Lemma batch_earliest op m s1 s2 s3 t e :
  first_failure (method_coros op m s1 s2 s3) = Some (t, e) ->
  exists s, In s [s1; s2; s3] /\
    finish (m s) = Raises e /\
    forall s', In s' [s1; s2; s3] -> is_ok (finish (m s')) = false ->
               ticks (m s) <= ticks (m s').
Proof.
  intros F.
  destruct (first_failure_some _ _ _ F) as (c & Hc & Fc & Tc).
  apply in_method_coros_full in Hc as (s & Hs & Ef & Et).
  exists s. split; [exact Hs|]. split; [now rewrite <- Ef|].
  intros s' Hs' Hf'.
  destruct (method_coros_in_full op m s1 s2 s3 s' Hs') as (c' & Hc' & Ef' & Et').
  rewrite <- Et, <- Et', Tc.
  apply (first_failure_least _ _ _ F c' Hc'). now rewrite Ef'.
Qed.

Lemma completions_call_events name op op' :
  completions name op (call_events op') = 0.
Proof. reflexivity. Qed.

Lemma completions_startup_calls name op :
  completions name op startup_calls = 0.
Proof. reflexivity. Qed.

Lemma calls_startup_calls name :
  In name service_names -> calls name Initialize startup_calls = 1.
Proof.
  intros H. unfold startup_calls.
  rewrite calls_app, calls_call_events by assumption. reflexivity.
Qed.

Lemma forallb_completion_done_events op m s1 s2 s3 (f : list (Coro unit) -> list (Coro unit)) :
  (forall c, In c (f (method_coros op m s1 s2 s3)) ->
             In c (method_coros op m s1 s2 s3)) ->
  forallb (is_completion op) (map done_event (f (method_coros op m s1 s2 s3)))
  = true.
Proof.
  intros Hsub. apply forallb_forall. intros ev Hev.
  apply in_map_iff in Hev as (c & <- & Hc).
  apply Hsub in Hc. destruct Hc as [<-|[<-|[<-|[]]]]; destruct op; reflexivity.
Qed.

Lemma in_insert_by_ticks {A} (c d : Coro A) l :
  In d (insert_by_ticks c l) -> d = c \/ In d l.
Proof.
  induction l as [|x l IH]; simpl.
  - intros [<-|[]]. now left.
  - destruct (Nat.leb (co_ticks c) (co_ticks x)); simpl.
    + intros [<-|H]; auto.
    + intros [<-|H]; auto. destruct (IH H); auto.
Qed.

Lemma in_completion_order {A} (d : Coro A) cs :
  In d (completion_order cs) -> In d cs.
Proof.
  induction cs as [|c cs IH]; simpl; [tauto|].
  intros H. apply in_insert_by_ticks in H as [->|H]; auto.
Qed.

Lemma startup_has_failure env :
  (exists s, In s (created_services env) /\
             is_ok (finish (svc_initialize s)) = false) ->
  exists t e,
    first_failure
      (method_coros Initialize svc_initialize (FuzzyMatchService env)
         (GraphIndexService env) (QueryOptimizerService env)) = Some (t, e).
Proof.
  intros (s & Hs & Hf). apply first_failure_exists.
  destruct (method_coros_in Initialize svc_initialize _ _ _ s Hs) as (c & Hc & Ec).
  exists c. split; [exact Hc|]. now rewrite Ec.
Qed.

(** ** More on startup *)

(** X1.  However initialisation ends, entering [lifespan] performs the same
    steps in the same order: [setup_logging], [setup_monitoring], then the
    call of [initialize] on [fuzzy_match], [graph_index] and
    [query_optimizer]; all three calls are made before any of them is seen to
    finish, and nothing but their completions follows. *)
Theorem startup_order env w :
  lifecycle w = Uninitialized ->
  cm_entered w = false ->
  exists tail,
    trace (fst (lifespan_aenter env w))
    = trace w
      ++ [EvSetupLogging; EvSetupMonitoring;
          EvCall "fuzzy_match" Initialize; EvCall "graph_index" Initialize;
          EvCall "query_optimizer" Initialize]
      ++ tail /\
    forallb (is_completion Initialize) tail = true.
Proof.
  intros HL HE. unfold lifespan_aenter. rewrite HE.
  rewrite (lifespan_startup_step env (with_entered w) HL).
  destruct (first_failure _) as [[t e]|]; cbn [fst trace with_entered];
    eexists; (split; [reflexivity|]).
  - apply (forallb_completion_done_events Initialize svc_initialize _ _ _
             (fun cs => completion_order (finished_by t cs))).
    intros c Hc. apply in_completion_order in Hc.
    unfold finished_by in Hc. now apply filter_In in Hc.
  - apply (forallb_completion_done_events Initialize svc_initialize _ _ _
             (fun cs => completion_order cs)).
    intros c Hc. now apply in_completion_order in Hc.
Qed.

Lemma startup_order_witness :
  lifecycle init_world = Uninitialized /\
  cm_entered init_world = false /\
  exists tail,
    trace (fst (lifespan_aenter env_slow_init init_world))
    = trace init_world
      ++ [EvSetupLogging; EvSetupMonitoring;
          EvCall "fuzzy_match" Initialize; EvCall "graph_index" Initialize;
          EvCall "query_optimizer" Initialize]
      ++ tail /\
    forallb (is_completion Initialize) tail = true.
Proof.
  split; [reflexivity|]. split; [reflexivity|].
  exact (startup_order env_slow_init init_world eq_refl eq_refl).
Defined.

(** X2.  A failed startup still invokes [initialize] exactly once on each
    service; when the failure reaches the caller each of these calls has
    either finished or is left running with nobody awaiting it (none is
    cancelled); no [cleanup] is invoked, nothing is logged, and the three
    services stay attached to [app.state]. *)
Theorem failed_startup_accounting env w :
  lifecycle w = Uninitialized ->
  cm_entered w = false ->
  (exists s, In s (created_services env) /\
             is_ok (finish (svc_initialize s)) = false) ->
  exists w' e evs ps,
    lifespan_aenter env w = (w', Raises e) /\
    trace w' = trace w ++ evs /\
    pending w' = pending w ++ ps /\
    (forall name, In name service_names ->
       calls name Initialize evs = 1 /\
       completions name Initialize evs + left_running name Initialize ps = 1 /\
       calls name Cleanup evs = 0) /\
    filter is_log evs = [] /\
    app_state w'
    = attached (FuzzyMatchService env) (GraphIndexService env)
        (QueryOptimizerService env).
Proof.
  intros HL HE Hf. unfold lifespan_aenter. rewrite HE.
  rewrite (lifespan_startup_step env (with_entered w) HL).
  destruct (startup_has_failure env Hf) as (t & e & ->).
  eexists _, e, _, _. split; [reflexivity|].
  cbn [trace pending app_state with_entered].
  split; [reflexivity|]. split; [reflexivity|]. split; [|split; [|reflexivity]].
  - intros name Hn.
    rewrite calls_app, calls_done_events, completions_app,
      completions_startup_calls, calls_startup_calls by assumption.
    split; [reflexivity|]. split.
    + now apply completions_partial.
    + apply startup_events_no_cleanup.
  - rewrite filter_app, logs_done_events. reflexivity.
Qed.

Lemma failed_startup_accounting_witness :
  lifecycle init_world = Uninitialized /\
  cm_entered init_world = false /\
  (exists s, In s (created_services env_slow_init) /\
             is_ok (finish (svc_initialize s)) = false) /\
  exists w' e evs ps,
    lifespan_aenter env_slow_init init_world = (w', Raises e) /\
    trace w' = trace init_world ++ evs /\
    pending w' = pending init_world ++ ps /\
    (forall name, In name service_names ->
       calls name Initialize evs = 1 /\
       completions name Initialize evs + left_running name Initialize ps = 1 /\
       calls name Cleanup evs = 0) /\
    filter is_log evs = [] /\
    app_state w'
    = attached (FuzzyMatchService env_slow_init) (GraphIndexService env_slow_init)
        (QueryOptimizerService env_slow_init).
Proof.
  assert (exists s, In s (created_services env_slow_init) /\
                    is_ok (finish (svc_initialize s)) = false) as H
    by (exists svc_init_fails; split; [right; left; reflexivity | reflexivity]).
  split; [reflexivity|]. split; [reflexivity|]. split; [exact H|].
  exact (failed_startup_accounting env_slow_init init_world eq_refl eq_refl H).
Defined.

(** X3.  The exception a failed startup raises is that of a service whose
    [initialize] failed no later than the [initialize] of any other failing
    service: the first failure wins, later ones are never seen by the
    caller. *)
Theorem startup_surfaces_earliest_failure env w :
  lifecycle w = Uninitialized ->
  cm_entered w = false ->
  (exists s, In s (created_services env) /\
             is_ok (finish (svc_initialize s)) = false) ->
  exists w' e s,
    lifespan_aenter env w = (w', Raises e) /\
    In s (created_services env) /\
    finish (svc_initialize s) = Raises e /\
    forall s', In s' (created_services env) ->
               is_ok (finish (svc_initialize s')) = false ->
               ticks (svc_initialize s) <= ticks (svc_initialize s').
Proof.
  intros HL HE Hf. unfold lifespan_aenter. rewrite HE.
  rewrite (lifespan_startup_step env (with_entered w) HL).
  destruct (startup_has_failure env Hf) as (t & e & F). rewrite F.
  destruct (batch_earliest _ _ _ _ _ _ _ F) as (s & Hs & Fs & Hmin).
  eexists _, e, s. split; [reflexivity|]. auto.
Qed.

Lemma startup_surfaces_earliest_failure_witness :
  lifecycle init_world = Uninitialized /\
  cm_entered init_world = false /\
  (exists s, In s (created_services env_slow_init) /\
             is_ok (finish (svc_initialize s)) = false) /\
  exists w' e s,
    lifespan_aenter env_slow_init init_world = (w', Raises e) /\
    In s (created_services env_slow_init) /\
    finish (svc_initialize s) = Raises e /\
    forall s', In s' (created_services env_slow_init) ->
               is_ok (finish (svc_initialize s')) = false ->
               ticks (svc_initialize s) <= ticks (svc_initialize s').
Proof.
  assert (exists s, In s (created_services env_slow_init) /\
                    is_ok (finish (svc_initialize s)) = false) as H
    by (exists svc_init_fails; split; [right; left; reflexivity | reflexivity]).
  split; [reflexivity|]. split; [reflexivity|]. split; [exact H|].
  exact (startup_surfaces_earliest_failure env_slow_init init_world
           eq_refl eq_refl H).
Defined.

(** ** More on shutdown *)

(** X4.  The exception a failed shutdown raises is that of a service whose
    [cleanup] failed no later than the [cleanup] of any other failing
    service. *)
Theorem shutdown_surfaces_earliest_failure env w s1 s2 s3 :
  lifecycle w = Ready ->
  app_state w = attached s1 s2 s3 ->
  (exists s, In s [s1; s2; s3] /\ is_ok (finish (svc_cleanup s)) = false) ->
  exists w' e s,
    lifespan_aexit env w = (w', Raises e) /\
    lifecycle w' = FailedShutdown /\
    In s [s1; s2; s3] /\
    finish (svc_cleanup s) = Raises e /\
    forall s', In s' [s1; s2; s3] ->
               is_ok (finish (svc_cleanup s')) = false ->
               ticks (svc_cleanup s) <= ticks (svc_cleanup s').
Proof.
  intros HL HS (s0 & Hs0 & Hf0). unfold lifespan_aexit.
  rewrite (lifespan_shutdown_step env w s1 s2 s3 HL HS).
  destruct (first_failure_exists (method_coros Cleanup svc_cleanup s1 s2 s3))
    as (t & e & F).
  { destruct (method_coros_in Cleanup svc_cleanup s1 s2 s3 s0 Hs0) as (c & Hc & Ec).
    exists c. split; [exact Hc|]. now rewrite Ec. }
  rewrite F.
  destruct (batch_earliest _ _ _ _ _ _ _ F) as (s & Hs & Fs & Hmin).
  eexists _, e, s. split; [reflexivity|]. split; [reflexivity|]. auto.
Qed.

Lemma shutdown_surfaces_earliest_failure_witness :
  lifecycle (started env_cleanup_fails) = Ready /\
  app_state (started env_cleanup_fails)
  = attached svc_cleanup_fails svc_slow_cleanup svc_ok /\
  (exists s, In s [svc_cleanup_fails; svc_slow_cleanup; svc_ok] /\
             is_ok (finish (svc_cleanup s)) = false) /\
  exists w' e s,
    lifespan_aexit env_cleanup_fails (started env_cleanup_fails) = (w', Raises e) /\
    lifecycle w' = FailedShutdown /\
    In s [svc_cleanup_fails; svc_slow_cleanup; svc_ok] /\
    finish (svc_cleanup s) = Raises e /\
    forall s', In s' [svc_cleanup_fails; svc_slow_cleanup; svc_ok] ->
               is_ok (finish (svc_cleanup s')) = false ->
               ticks (svc_cleanup s) <= ticks (svc_cleanup s').
Proof.
  assert (exists s, In s [svc_cleanup_fails; svc_slow_cleanup; svc_ok] /\
                    is_ok (finish (svc_cleanup s)) = false) as H
    by (exists svc_cleanup_fails; split; [left; reflexivity | reflexivity]).
  split; [reflexivity|]. split; [reflexivity|]. split; [exact H|].
  exact (shutdown_surfaces_earliest_failure env_cleanup_fails
           (started env_cleanup_fails)
           svc_cleanup_fails svc_slow_cleanup svc_ok eq_refl eq_refl H).
Defined.

(** X5.  A whole lifetime with well-behaved services: entering [lifespan]
    and then leaving it both return normally and end in [Stopped] with
    nothing left running; every [initialize] is invoked and finished once
    before the first [cleanup] is invoked, and every [cleanup] is invoked and
    finished once. *)
Theorem full_lifecycle env w :
  lifecycle w = Uninitialized ->
  cm_entered w = false ->
  (forall s, In s (created_services env) ->
             is_ok (finish (svc_initialize s)) = true) ->
  (forall s, In s (created_services env) ->
             is_ok (finish (svc_cleanup s)) = true) ->
  exists w1 w2 evs1 evs2,
    lifespan_aenter env w = (w1, Returns tt) /\
    lifespan_aexit env w1 = (w2, Returns false) /\
    lifecycle w1 = Ready /\
    lifecycle w2 = Stopped /\
    trace w1 = trace w ++ evs1 /\
    trace w2 = trace w ++ evs1 ++ evs2 /\
    pending w2 = pending w /\
    forall name, In name service_names ->
      calls name Initialize evs1 = 1 /\
      completions name Initialize evs1 = 1 /\
      calls name Cleanup evs1 = 0 /\
      calls name Initialize evs2 = 0 /\
      calls name Cleanup evs2 = 1 /\
      completions name Cleanup evs2 = 1.
Proof.
  intros HL HE Hinit Hclean.
  assert (first_failure
            (method_coros Initialize svc_initialize (FuzzyMatchService env)
               (GraphIndexService env) (QueryOptimizerService env)) = None) as FI.
  { apply first_failure_none. intros c Hc.
    apply in_method_coros in Hc as (s & Hs & ->). now apply Hinit. }
  assert (first_failure
            (method_coros Cleanup svc_cleanup (FuzzyMatchService env)
               (GraphIndexService env) (QueryOptimizerService env)) = None) as FC.
  { apply first_failure_none. intros c Hc.
    apply in_method_coros in Hc as (s & Hs & ->). now apply Hclean. }
  unfold lifespan_aenter. rewrite HE.
  rewrite (lifespan_startup_step env (with_entered w) HL), FI.
  unfold lifespan_aexit.
  eexists _, _, _, _. split; [reflexivity|].
  erewrite lifespan_shutdown_step; [|reflexivity|reflexivity].
  rewrite FC.
  split; [reflexivity|].
  cbn [lifecycle trace pending with_entered].
  split; [reflexivity|]. split; [reflexivity|]. split; [reflexivity|].
  split; [now rewrite <- app_assoc|]. split; [reflexivity|].
  intros name Hn.
  rewrite !calls_app, !calls_done_events, !completions_app,
    completions_startup_calls, completions_call_events,
    !completions_batch, calls_startup_calls, calls_call_events by assumption.
  rewrite (calls_other_op name Initialize Cleanup) by discriminate.
  repeat split.
  pose proof (startup_events_no_cleanup name (@nil (Coro unit))) as Z.
  simpl map in Z. rewrite app_nil_r in Z. unfold startup_calls. rewrite Z.
  reflexivity.
Qed.

Lemma full_lifecycle_witness :
  lifecycle init_world = Uninitialized /\
  cm_entered init_world = false /\
  (forall s, In s (created_services env_ok) ->
             is_ok (finish (svc_initialize s)) = true) /\
  (forall s, In s (created_services env_ok) ->
             is_ok (finish (svc_cleanup s)) = true) /\
  exists w1 w2 evs1 evs2,
    lifespan_aenter env_ok init_world = (w1, Returns tt) /\
    lifespan_aexit env_ok w1 = (w2, Returns false) /\
    lifecycle w1 = Ready /\
    lifecycle w2 = Stopped /\
    trace w1 = trace init_world ++ evs1 /\
    trace w2 = trace init_world ++ evs1 ++ evs2 /\
    pending w2 = pending init_world /\
    forall name, In name service_names ->
      calls name Initialize evs1 = 1 /\
      completions name Initialize evs1 = 1 /\
      calls name Cleanup evs1 = 0 /\
      calls name Initialize evs2 = 0 /\
      calls name Cleanup evs2 = 1 /\
      completions name Cleanup evs2 = 1.
Proof.
  assert (forall s, In s (created_services env_ok) ->
                    is_ok (finish (svc_initialize s)) = true) as H1
    by (intros s [<-|[<-|[<-|[]]]]; reflexivity).
  assert (forall s, In s (created_services env_ok) ->
                    is_ok (finish (svc_cleanup s)) = true) as H2
    by (intros s [<-|[<-|[<-|[]]]]; reflexivity).
  split; [reflexivity|]. split; [reflexivity|].
  split; [exact H1|]. split; [exact H2|].
  exact (full_lifecycle env_ok init_world eq_refl eq_refl H1 H2).
Defined.

(** ** What every run of the application keeps *)

Lemma aenter_world env w :
  fst (lifespan_aenter env w)
  = if cm_entered w then w else fst (lifespan env (with_entered w)).
Proof.
  unfold lifespan_aenter. destruct (cm_entered w); [reflexivity|].
  destruct (lifespan env (with_entered w)) as [w' []]; reflexivity.
Qed.

Lemma aexit_world env w :
  fst (lifespan_aexit env w) = fst (lifespan env w).
Proof.
  unfold lifespan_aexit.
  destruct (lifespan env w) as [w' []]; reflexivity.
Qed.

(** The handler of [/health] adds only its own calls to the trace. *)
Lemma health_check_trace w :
  exists evs,
    trace (fst (health_check w)) = trace w ++ evs /\
    (forall name, calls name Initialize evs = 0 /\ calls name Cleanup evs = 0) /\
    filter is_log evs = [].
Proof.
  destruct w as [[f g q] lc en tr pd]. run_health.
  split_outcomes; rewrite <- ?app_assoc;
    first [ eexists; split; [reflexivity|]
          | exists []; split; [now rewrite app_nil_r|] ];
    (split; [intros name; unfold calls; simpl; now rewrite ?andb_false_r
            | reflexivity]).
Qed.

Lemma dispatch_frame request (endpoint : M PyVal) w :
  app_state (fst (dispatch request endpoint w)) = app_state (fst (endpoint w)) /\
  lifecycle (fst (dispatch request endpoint w)) = lifecycle (fst (endpoint w)) /\
  forall name op,
    calls name op (trace (fst (dispatch request endpoint w)))
    = calls name op (trace (fst (endpoint w))).
Proof.
  unfold dispatch. destruct (endpoint w) as [w' [body|exc]]; simpl;
    repeat split; auto.
  intros name op. rewrite calls_app. unfold calls at 2. simpl. lia.
Qed.

Lemma inv_lifespan env w :
  lifetime_inv env w -> lifetime_inv env (fst (lifespan env w)).
Proof.
  unfold lifetime_inv at 1. intros H.
  destruct (lifecycle w) eqn:HL.
  - destruct H as [_ H0].
    rewrite (lifespan_startup_step env w HL).
    destruct (first_failure _) as [[t e]|]; unfold lifetime_inv;
      cbn [fst lifecycle app_state trace]; (split; [reflexivity|]);
      intros name Hn; destruct (H0 name Hn) as [HI HC];
      rewrite !calls_app, !calls_done_events, HI, HC,
        calls_startup_calls by assumption;
      (split; [reflexivity|]);
      pose proof (startup_events_no_cleanup name (@nil (Coro unit))) as Z;
      simpl map in Z; rewrite app_nil_r in Z; unfold startup_calls;
      rewrite Z; reflexivity.
  - destruct H as [HS H1].
    rewrite (lifespan_shutdown_step env w _ _ _ HL HS).
    destruct (first_failure _) as [[t e]|]; unfold lifetime_inv;
      cbn [fst lifecycle app_state trace]; (split; [exact HS|]);
      intros name Hn; destruct (H1 name Hn) as [HI HC];
      rewrite !calls_app, !calls_done_events, HI, HC,
        calls_call_events by assumption;
      rewrite (calls_other_op name Initialize Cleanup) by discriminate;
      split; reflexivity.
  - unfold lifespan. rewrite HL. unfold lifetime_inv. simpl. now rewrite HL.
  - unfold lifespan. rewrite HL. unfold lifetime_inv. simpl. now rewrite HL.
  - unfold lifespan. rewrite HL. unfold lifetime_inv. simpl. now rewrite HL.
Qed.

Lemma inv_act env a w :
  lifetime_inv env w -> lifetime_inv env (act env a w).
Proof.
  intros H. destruct a; simpl.
  - rewrite aenter_world. destruct (cm_entered w); [exact H|].
    apply inv_lifespan. exact H.
  - rewrite aexit_world. now apply inv_lifespan.
  - exact H.
  - destruct (dispatch_frame get_health health_check w) as (HS & HL & HC).
    destruct (health_check_frame w) as (HS' & HL' & _).
    destruct (health_check_trace w) as (evs & HT & Hz & _).
    assert (forall name op, op = Initialize \/ op = Cleanup ->
              calls name op (trace (fst (dispatch get_health health_check w)))
              = calls name op (trace w)) as E.
    { intros name op Hop. rewrite HC, HT, calls_app.
      destruct (Hz name) as [ZI ZC].
      destruct Hop as [-> | ->]; [rewrite ZI | rewrite ZC]; lia. }
    unfold lifetime_inv in *. rewrite HL, HL', HS, HS'.
    destruct (lifecycle w); destruct H as [HA HN]; (split; [exact HA|]);
      intros name Hn; rewrite !E by auto; now apply HN.
Qed.

Lemma inv_run env acts w :
  lifetime_inv env w -> lifetime_inv env (run env acts w).
Proof.
  revert w. induction acts as [|a acts IH]; intros w H; simpl; [exact H|].
  apply IH. now apply inv_act.
Qed.

Lemma inv_init env : lifetime_inv env init_world.
Proof. split; [reflexivity|]. intros name _. split; reflexivity. Qed.



(** ** More on [/health] *)

(** X7.  When the three checks return, one request to [/health] invokes each
    check exactly once, in the order [fuzzy_match], [graph_index],
    [query_optimizer], and each check has finished before the next one is
    invoked: the checks run one after the other, not side by side. *)
Theorem health_checks_sequential w s1 s2 s3 v1 v2 v3 :
  app_state w = attached s1 s2 s3 ->
  finish (svc_health_check s1) = Returns v1 ->
  finish (svc_health_check s2) = Returns v2 ->
  finish (svc_health_check s3) = Returns v3 ->
  trace (fst (health_check w))
  = trace w
    ++ [EvCall "fuzzy_match" HealthCheck; EvDone "fuzzy_match" HealthCheck true;
        EvCall "graph_index" HealthCheck; EvDone "graph_index" HealthCheck true;
        EvCall "query_optimizer" HealthCheck;
        EvDone "query_optimizer" HealthCheck true].
Proof.
  intros HS H1 H2 H3.
  now rewrite (health_check_returns w s1 s2 s3 v1 v2 v3 HS H1 H2 H3).
Qed.

Lemma health_checks_sequential_witness :
  app_state (started env_rich_health)
  = attached (svc_health_says (PyInt 1)) (svc_health_says (PyStr "ok"))
      (svc_health_says (PyList [PyNone])) /\
  trace (fst (health_check (started env_rich_health)))
  = trace (started env_rich_health)
    ++ [EvCall "fuzzy_match" HealthCheck; EvDone "fuzzy_match" HealthCheck true;
        EvCall "graph_index" HealthCheck; EvDone "graph_index" HealthCheck true;
        EvCall "query_optimizer" HealthCheck;
        EvDone "query_optimizer" HealthCheck true].
Proof.
  split; [reflexivity|].
  exact (health_checks_sequential (started env_rich_health)
           (svc_health_says (PyInt 1)) (svc_health_says (PyStr "ok"))
           (svc_health_says (PyList [PyNone]))
           (PyInt 1) (PyStr "ok") (PyList [PyNone])
           eq_refl eq_refl eq_refl eq_refl).
Defined.

(** X8.  The first check that raises ends the request: its exception is the
    one that leaves the handler, the checks before it were invoked and
    finished, and the checks after it are never invoked. *)
Theorem health_check_stops_at_first_failure w s1 s2 s3 :
  app_state w = attached s1 s2 s3 ->
  (forall e, finish (svc_health_check s1) = Raises e ->
     health_check w
     = (log_events
          [EvCall "fuzzy_match" HealthCheck;
           EvDone "fuzzy_match" HealthCheck false] w,
        Raises e)) /\
  (forall v1 e,
     finish (svc_health_check s1) = Returns v1 ->
     finish (svc_health_check s2) = Raises e ->
     health_check w
     = (log_events
          [EvCall "fuzzy_match" HealthCheck; EvDone "fuzzy_match" HealthCheck true;
           EvCall "graph_index" HealthCheck;
           EvDone "graph_index" HealthCheck false] w,
        Raises e)) /\
  (forall v1 v2 e,
     finish (svc_health_check s1) = Returns v1 ->
     finish (svc_health_check s2) = Returns v2 ->
     finish (svc_health_check s3) = Raises e ->
     health_check w
     = (log_events
          [EvCall "fuzzy_match" HealthCheck; EvDone "fuzzy_match" HealthCheck true;
           EvCall "graph_index" HealthCheck; EvDone "graph_index" HealthCheck true;
           EvCall "query_optimizer" HealthCheck;
           EvDone "query_optimizer" HealthCheck false] w,
        Raises e)).
Proof.
  destruct w as [st lc en tr pd]. simpl. intros ->.
  repeat split.
  - intros e H1. run_health. rewrite H1. simpl. now rewrite <- ?app_assoc.
  - intros v1 e H1 H2. run_health. rewrite H1. simpl. rewrite H2. simpl.
    now rewrite <- ?app_assoc.
  - intros v1 v2 e H1 H2 H3. run_health. rewrite H1. simpl. rewrite H2. simpl.
    rewrite H3. simpl. now rewrite <- ?app_assoc.
Qed.

Lemma health_check_stops_at_first_failure_witness :
  app_state (started env_health_raises) = attached svc_health_raises svc_ok svc_ok /\
  finish (svc_health_check svc_health_raises) = Raises boom /\
  health_check (started env_health_raises)
  = (log_events
       [EvCall "fuzzy_match" HealthCheck;
        EvDone "fuzzy_match" HealthCheck false] (started env_health_raises),
     Raises boom).
Proof.
  split; [reflexivity|]. split; [reflexivity|].
  exact (proj1 (health_check_stops_at_first_failure (started env_health_raises)
                  svc_health_raises svc_ok svc_ok eq_refl)
               boom eq_refl).
Defined.



(** X10.  As long as [lifespan] has not been started, a request to [/health]
    is answered with status 500: reading [app.state.fuzzy_match_service]
    raises [AttributeError], whose text becomes the [detail], and no check
    is invoked. *)
Theorem health_before_startup env acts request :
  lifecycle (run env acts init_world) = Uninitialized ->
  exists w',
    dispatch request health_check (run env acts init_world)
    = (w', Returns
             (mkJSONResponse 500
                (PyDict
                   [("error", PyStr "内部服务器错误");
                    ("detail",
                     PyStr "'State' object has no attribute 'fuzzy_match_service'")]))) /\
    forall name,
      calls name HealthCheck (trace w')
      = calls name HealthCheck (trace (run env acts init_world)).
Proof.
  intros HL.
  pose proof (inv_run env acts init_world (inv_init env)) as H.
  unfold lifetime_inv in H. rewrite HL in H. destruct H as [HA _].
  destruct (run env acts init_world) as [st lc en tr pd]. simpl in HA. subst st.
  eexists. split; [reflexivity|].
  intros name. simpl. rewrite calls_app. unfold calls at 2. simpl. lia.
Qed.

Lemma health_before_startup_witness :
  lifecycle (run env_ok [GetRoot; GetHealth] init_world) = Uninitialized /\
  exists w',
    dispatch get_health health_check (run env_ok [GetRoot; GetHealth] init_world)
    = (w', Returns
             (mkJSONResponse 500
                (PyDict
                   [("error", PyStr "内部服务器错误");
                    ("detail",
                     PyStr "'State' object has no attribute 'fuzzy_match_service'")]))) /\
    forall name,
      calls name HealthCheck (trace w')
      = calls name HealthCheck (trace (run env_ok [GetRoot; GetHealth] init_world)).
Proof.
  split; [reflexivity|].
  exact (health_before_startup env_ok [GetRoot; GetHealth] get_health eq_refl).
Defined.

(** X11.  A degraded application is not an error: when the three checks
    return and at least one result is falsy, [/health] is answered with
    status 200 and the verdict ["degraded"], and nothing is logged. *)
Theorem degraded_is_200 request w s1 s2 s3 v1 v2 v3 :
  app_state w = attached s1 s2 s3 ->
  finish (svc_health_check s1) = Returns v1 ->
  finish (svc_health_check s2) = Returns v2 ->
  finish (svc_health_check s3) = Returns v3 ->
  truthy v1 = false \/ truthy v2 = false \/ truthy v3 = false ->
  exists w',
    dispatch request health_check w
    = (w', Returns
             (mkJSONResponse 200
                (PyDict
                   [("status", PyStr "degraded");
                    ("services",
                     PyDict [("fuzzy_match", v1); ("graph_index", v2);
                             ("query_optimizer", v3)])]))) /\
    filter is_log (trace w') = filter is_log (trace w).
Proof.
  intros HS H1 H2 H3 HF. unfold dispatch.
  rewrite (health_check_returns w s1 s2 s3 v1 v2 v3 HS H1 H2 H3).
  assert (truthy v1 && (truthy v2 && (truthy v3 && true)) = false) as ->
    by (destruct HF as [-> | [-> | ->]]; rewrite ?andb_false_r; reflexivity).
  eexists. split; [reflexivity|].
  simpl. rewrite filter_app. simpl. now rewrite app_nil_r.
Qed.

Lemma degraded_is_200_witness :
  exists w',
    dispatch get_health health_check
      (started (mkEnv svc_ok (svc_health_says PyNone) svc_ok))
    = (w', Returns
             (mkJSONResponse 200
                (PyDict
                   [("status", PyStr "degraded");
                    ("services",
                     PyDict [("fuzzy_match", PyBool true); ("graph_index", PyNone);
                             ("query_optimizer", PyBool true)])]))) /\
    filter is_log (trace w')
    = filter is_log (trace (started (mkEnv svc_ok (svc_health_says PyNone) svc_ok))).
Proof.
  exact (degraded_is_200 get_health
           (started (mkEnv svc_ok (svc_health_says PyNone) svc_ok))
           svc_ok (svc_health_says PyNone) svc_ok
           (PyBool true) PyNone (PyBool true)
           eq_refl eq_refl eq_refl eq_refl (or_intror (or_introl eq_refl))).
Defined.
